(** * SoundWaveFactory (hw_numpy.py): a shallow embedding and its properties

    The Python class [SoundWaveFactory] synthesises sine waves for musical
    notes, writes them to WAV or text files, prints statistics and rescales
    several waves onto a common range.

    Modelling conventions.
    - A float64 amplitude or time value is a real number and arithmetic on
      finite values is exact: rounding and overflow are not represented.
      The IEEE special values that numpy produces and propagates ([inf],
      [-inf], [nan]) are represented (type [float64]); signed zeros are not.
    - numpy, with its default error state, never raises on a floating-point
      division by zero: it warns and returns [nan] or an infinity.
    - The state the methods can observe or change is a [world]: the class
      attribute [NOTES] (a mutable dict), the files of the working
      directory, standard output, and the buffers of the arrays that are
      passed by reference.
    - An int16 sample is a [Z]; the 16-bit wrap-around is written out. *)

From Stdlib Require Import Reals Lra Lia ZArith QArith Qreals.
From Stdlib Require Import Ascii String.
From stdpp Require Import gmap strings list fin_maps.

Open Scope R_scope.

(** ** Exceptions and results *)

Inductive exn : Type :=
| KeyError
| ValueError
| FileNotFoundError.

Inductive result (A : Type) : Type :=
| Ok (a : A)
| Raise (e : exn).
Arguments Ok {A} a.
Arguments Raise {A} e.

#[global] Instance result_ret : MRet result := fun _ a => Ok a.
#[global] Instance result_bind : MBind result := fun _ _ f m =>
  match m with
  | Ok a => f a
  | Raise e => Raise e
  end.

(** ** float64 values *)

#[global] Instance Rle_decision (x y : R) : Decision (x <= y) := Rle_dec x y.
#[global] Instance Rlt_decision (x y : R) : Decision (x < y) := Rlt_dec x y.
#[global] Instance Req_decision : EqDecision R := Req_dec_T.

Inductive float64 : Type :=
| Fin (r : R)
| PInf
| NInf
| NaN.

(** [a - b] *)
Definition f_sub (a b : float64) : float64 :=
  match a, b with
  | NaN, _ | _, NaN => NaN
  | Fin x, Fin y => Fin (x - y)
  | PInf, PInf | NInf, NInf => NaN
  | PInf, _ | _, NInf => PInf
  | NInf, _ | _, PInf => NInf
  end.

(** [a / b] (numpy true_divide): a zero divisor gives [nan] for a zero
    dividend and an infinity otherwise, and nothing is raised. *)
Definition f_div (a b : float64) : float64 :=
  match a, b with
  | NaN, _ | _, NaN => NaN
  | Fin x, Fin y =>
      if decide (y = 0)
      then if decide (x = 0) then NaN else if decide (0 < x) then PInf else NInf
      else Fin (x / y)
  | Fin _, _ => Fin 0
  | _, PInf | _, NInf => NaN
  | PInf, Fin y => if decide (0 <= y) then PInf else NInf
  | NInf, Fin y => if decide (0 <= y) then NInf else PInf
  end.

(** [a <= b] on values that are not [nan] *)
Definition f_leb (a b : float64) : bool :=
  match a, b with
  | NaN, _ | _, NaN => false
  | NInf, _ | _, PInf => true
  | Fin x, Fin y => bool_decide (x <= y)
  | _, _ => false
  end.

(** [a < b] and [a == b]; every comparison with [nan] is false *)
Definition f_ltb (a b : float64) : bool := f_leb a b && negb (f_leb b a).
Definition f_eqb (a b : float64) : bool := f_leb a b && f_leb b a.

(** np.minimum and np.maximum of two values: [nan] propagates *)
Definition f_min (a b : float64) : float64 :=
  match a, b with
  | NaN, _ | _, NaN => NaN
  | _, _ => if f_leb a b then a else b
  end.

Definition f_max (a b : float64) : float64 :=
  match a, b with
  | NaN, _ | _, NaN => NaN
  | _, _ => if f_leb a b then b else a
  end.

(** np.min and np.max of an array given by its elements: ValueError on a
    zero-size array *)
Definition np_min (xs : list float64) : result float64 :=
  match xs with
  | [] => Raise ValueError
  | x :: xs' => Ok (foldl f_min x xs')
  end.

Definition np_max (xs : list float64) : result float64 :=
  match xs with
  | [] => Raise ValueError
  | x :: xs' => Ok (foldl f_max x xs')
  end.

(** The builtin [min] on a list of lengths: ValueError on an empty list *)
Definition py_min (ns : list nat) : result nat :=
  match ns with
  | [] => Raise ValueError
  | n :: ns' => Ok (foldl Nat.min n ns')
  end.

(** A waveform of real amplitudes as a float64 array *)
Definition as_array (w : list R) : list float64 := map Fin w.

(** ** Class constants *)

Definition SAMPLING_RATE : Z := 44100.
Definition DURATION_SECONDS : Z := 5.
Definition SOUND_ARRAY_LEN : Z := SAMPLING_RATE * DURATION_SECONDS.
Definition MAX_AMPLITUDE : Z := 2 ^ 13.

(** The dict literal of [NOTES], in source order *)
Definition NOTES_items : list (string * Q) :=
  [ ("0", 0); ("e0", 20.60172); ("f0", 21.82676); ("f#0", 23.12465); ("g0", 24.49971); ("g#0", 25.95654); ("a0", 27.50000); ("a#0", 29.13524);
    ("b0", 30.86771); ("c0", 32.70320); ("c#0", 34.64783); ("d0", 36.70810); ("d#0", 38.89087);
    ("e1", 41.20344); ("f1", 43.65353); ("f#1", 46.24930); ("g1", 48.99943); ("g#1", 51.91309); ("a1", 55.00000); ("a#1", 58.27047);
    ("b1", 61.73541); ("c1", 65.40639); ("c#1", 69.29566); ("d1", 73.41619); ("d#1", 77.78175);
    ("e2", 82.40689); ("f2", 87.30706); ("f#2", 92.49861); ("g2", 97.99886); ("g#2", 103.8262); ("a2", 110.0000); ("a#2", 116.5409);
    ("b2", 123.4708); ("c2", 130.8128); ("c#2", 138.5913); ("d2", 146.8324); ("d#2", 155.5635);
    ("e3", 164.8138); ("f3", 174.6141); ("f#3", 184.9972); ("g3", 195.9977); ("g#3", 207.6523); ("a3", 220.0000); ("a#3", 233.0819);
    ("b3", 246.9417); ("c3", 261.6256); ("c#3", 277.1826); ("d3", 293.6648); ("d#3", 311.1270);
    ("e4", 329.6276); ("f4", 349.2282); ("f#4", 369.9944); ("g4", 391.9954); ("g#4", 415.3047); ("a4", 440.0000); ("a#4", 466.1638);
    ("b4", 493.8833); ("c4", 523.2511); ("c#4", 554.3653); ("d4", 587.3295); ("d#4", 622.2540);
    ("e5", 659.2551); ("f5", 698.4565); ("f#5", 739.9888); ("g5", 783.9909); ("g#5", 830.6094); ("a5", 880.0000); ("a#5", 932.3275);
    ("b5", 987.7666); ("c5", 1046.502); ("c#5", 1108.731); ("d5", 1174.659); ("d#5", 1244.508);
    ("e6", 1318.510); ("f6", 1396.913); ("f#6", 1479.978); ("g6", 1567.982); ("g#6", 1661.219); ("a6", 1760.000); ("a#6", 1864.655);
    ("b6", 1975.533); ("c6", 2093.005); ("c#6", 2217.461); ("d6", 2349.318); ("d#6", 2489.016);
    ("e7", 2637.020); ("f7", 2793.826); ("f#7", 2959.955); ("g7", 3135.963); ("g#7", 3322.438); ("a7", 3520.000); ("a#7", 3729.310);
    ("b7", 3951.066); ("c7", 4186.009); ("c#7", 4434.922); ("d7", 4698.636); ("d#7", 4978.032)
  ]%Q.

Definition NOTES : gmap string Q := list_to_map NOTES_items.

(** ** The world and the monad of the methods *)

(** A file is either a WAV file (sampling rate and mono int16 samples) or a
    text file of numbers, one per line. A text file is represented by the
    numbers it denotes: the decimal text itself is not represented. *)
Inductive file : Type :=
| WavFile (rate : Z) (samples : list Z)
| TxtFile (samples : list R).

(** A one-dimensional ndarray passed by reference: a view of [arr_len]
    cells of buffer [arr_base], starting at cell [arr_off]. *)
Record ndarray : Type := NdArray {
  arr_base : positive;
  arr_off : nat;
  arr_len : nat
}.

Record world : Type := World {
  notes : gmap string Q;
  files : gmap string file;
  stdout : list (string * float64);
  buffers : gmap positive (list float64)
}.

(** The world at class creation *)
Definition initial_world : world :=
  {| notes := NOTES; files := ∅; stdout := []; buffers := ∅ |}.

Definition M (A : Type) : Type := world -> result A * world.

#[global] Instance M_ret : MRet M := fun _ a w => (Ok a, w).
#[global] Instance M_bind : MBind M := fun _ _ f m w =>
  match m w with
  | (Ok a, w') => f a w'
  | (Raise e, w') => (Raise e, w')
  end.

Definition raise {A : Type} (e : exn) : M A := fun w => (Raise e, w).

(** A pure computation that may raise, run inside a method *)
Definition lift {A : Type} (r : result A) : M A := fun w => (r, w).

(** [self.NOTES[note]] *)
Definition notes_getitem (note : string) : M Q := fun w =>
  match notes w !! note with
  | Some frequency => (Ok frequency, w)
  | None => (Raise KeyError, w)
  end.

(** Creating or overwriting a file *)
Definition write_file (path : string) (f : file) : M unit := fun w =>
  (Ok tt, {| notes := notes w; files := <[path := f]> (files w);
             stdout := stdout w; buffers := buffers w |}).

(** [print(f"<label>: {value}")] *)
Definition print (label : string) (value : float64) : M unit := fun w =>
  (Ok tt, {| notes := notes w; files := files w;
             stdout := stdout w ++ [(label, value)]; buffers := buffers w |}).

(** ** Synthesis *)

(** np.linspace(start, stop, num) *)
Definition linspace (start stop : R) (num : nat) : list R :=
  map (fun i => start + INR i * ((stop - start) / INR (num - 1))) (seq 0 num).

Definition common_timeline : list R :=
  linspace 0 (IZR DURATION_SECONDS) (Z.to_nat SOUND_ARRAY_LEN).

Definition get_normed_sin (timeline : list R) (frequency : R) : list R :=
  map (fun t => IZR MAX_AMPLITUDE * sin (2 * PI * frequency * t)) timeline.

Definition get_soundwave (timeline : list R) (note : string) : M (list R) :=
  frequency ← notes_getitem note;
  mret (get_normed_sin timeline (Q2R frequency)).

(** Truncation toward zero, the C conversion of a double to an integer *)
Definition Rtrunc (x : R) : Z :=
  if decide (0 <= x) then Int_part x else (- Int_part (- x))%Z.

(** Reduction to the signed 16-bit range *)
Definition wrap16 (z : Z) : Z := ((z + 32768) mod 65536 - 32768)%Z.

(** [x.astype(np.int16)] on one float64 sample *)
Definition astype_int16 (x : R) : Z := wrap16 (Rtrunc x).

(** [s.replace(old, new)] for one-character [old] and [new] *)
Fixpoint replace (old new : Ascii.ascii) (s : string) : string :=
  match s with
  | EmptyString => EmptyString
  | String c s' => String (if decide (c = old) then new else c) (replace old new s')
  end.

(** The name of the file written by [create_note] *)
Definition file_name (note : string) (name : option string) : string :=
  match name with
  | None => replace "#"%char "s"%char (note +:+ "_sin.wav")
  | Some name => name +:+ ".wav"
  end.

(** [create_note(note, name, timeline)]; the caller who omits [note] passes
    the default "a4". *)
Definition create_note (note : string) (name : option string)
    (timeline : option (list R)) : M (list Z) :=
  let timeline := default common_timeline timeline in
  wave ← get_soundwave timeline note;
  let sound_wave := map astype_int16 wave in
  _ ← write_file (file_name note name) (WavFile SAMPLING_RATE sound_wave);
  mret sound_wave.

(** ** Files and statistics *)

(** [read_wave_from_txt(file_path)]: np.loadtxt *)
Definition read_wave_from_txt (file_path : string) : M (list R) := fun w =>
  match files w !! file_path with
  | Some (TxtFile samples) => (Ok samples, w)
  | Some (WavFile _ _) => (Raise ValueError, w)
  | None => (Raise FileNotFoundError, w)
  end.

Definition Rsum (xs : list R) : R := foldr Rplus 0 xs.

(** np.mean and np.std (population standard deviation) *)
Definition np_mean (xs : list R) : R := Rsum xs / INR (length xs).
Definition np_std (xs : list R) : R :=
  sqrt (np_mean (map (fun x => (x - np_mean xs) * (x - np_mean xs)) xs)).

(** [print_wave_details(wave, sampling_rate)]; [None] and [0] are the falsy
    sampling rates. *)
Definition print_wave_details (wave : list R) (sampling_rate : option Z) : M unit :=
  let sampling_rate :=
    match sampling_rate with
    | None => SAMPLING_RATE
    | Some r => if decide (r = 0%Z) then SAMPLING_RATE else r
    end in
  let duration := INR (length wave) / IZR sampling_rate in
  min_amplitude ← lift (np_min (as_array wave));
  max_amplitude ← lift (np_max (as_array wave));
  let mean_amplitude := np_mean wave in
  let std_amplitude := np_std wave in
  let wave_length := length wave in
  _ ← print "Duration" (Fin duration);
  _ ← print "Min Amplitude" min_amplitude;
  _ ← print "Max Amplitude" max_amplitude;
  _ ← print "Mean Amplitude" (Fin mean_amplitude);
  _ ← print "Standard Deviation" (Fin std_amplitude);
  print "Wave Length" (Fin (INR wave_length)).

(** [save_wave(wave, file_name, file_type)] *)
Definition save_wave (wave : list R) (file_name file_type : string) : M unit :=
  if decide (file_type = "WAV")
  then write_file (file_name +:+ ".wav") (WavFile SAMPLING_RATE (map astype_int16 wave))
  else write_file (file_name +:+ ".txt") (TxtFile wave).

(** ** Normalisation *)

(** [normalize_waves], called with any number of waves, on the contents of
    the arrays *)
Definition normalize_waves (waves : list (list float64)) : result (list (list float64)) :=
  min_length_wave ← py_min (map length waves);
  let trimmed_waves := map (take min_length_wave) waves in
  min_amplitude ← np_min (concat trimmed_waves);
  max_amplitude ← np_max (concat trimmed_waves);
  mret (map (fun wave =>
              map (fun x => f_div (f_sub x min_amplitude)
                                  (f_sub max_amplitude min_amplitude)) wave)
            trimmed_waves).

(** *** The same method on arrays passed by reference *)

(** The cells an array shows *)
Definition read_array (w : world) (a : ndarray) : list float64 :=
  take (arr_len a) (drop (arr_off a) (default [] (buffers w !! arr_base a))).

Definition array_read (a : ndarray) : M (list float64) := fun w =>
  (Ok (read_array w a), w).

(** [a[:k]]: a view of the same buffer, nothing is copied *)
Definition slice_to (k : nat) (a : ndarray) : ndarray :=
  {| arr_base := arr_base a; arr_off := arr_off a; arr_len := Nat.min k (arr_len a) |}.

(** A new array: a fresh buffer holding [xs] *)
Definition new_array (xs : list float64) : M ndarray := fun w =>
  let l := fresh (dom (buffers w)) in
  (Ok {| arr_base := l; arr_off := 0; arr_len := length xs |},
   {| notes := notes w; files := files w; stdout := stdout w;
      buffers := <[l := xs]> (buffers w) |}).

(** An elementwise operation with a scalar: the result is a new array *)
Definition array_map (f : float64 -> float64) (a : ndarray) : M ndarray :=
  xs ← array_read a;
  new_array (map f xs).

(** A list comprehension whose body has effects *)
Fixpoint for_each {A B : Type} (f : A -> M B) (xs : list A) : M (list B) :=
  match xs with
  | [] => mret []
  | x :: xs' =>
      y ← f x;
      ys ← for_each f xs';
      mret (y :: ys)
  end.

Definition normalize_waves_ref (waves : list ndarray) : M (list ndarray) :=
  min_length_wave ← lift (py_min (map arr_len waves));
  let trimmed_waves := map (slice_to min_length_wave) waves in
  contents ← for_each array_read trimmed_waves;
  min_amplitude ← lift (np_min (concat contents));
  max_amplitude ← lift (np_max (concat contents));
  for_each (fun wave =>
              difference ← array_map (fun x => f_sub x min_amplitude) wave;
              array_map (fun x => f_div x (f_sub max_amplitude min_amplitude)) difference)
           trimmed_waves.

(** ** Vocabulary of the properties *)

(** [m] is a least element of [xs] for the order [le] *)
Definition is_minimum {A : Type} (le : relation A) (m : A) (xs : list A) : Prop :=
  m ∈ xs /\ Forall (le m) xs.

(** A method keeps the notes table when the world it leaves has the table
    of the world it was called in, whether it returns or raises. *)
Definition keeps_notes {A : Type} (m : M A) : Prop :=
  forall w : world, notes (m w).2 = notes w.

(** An array reference is well formed when its buffer exists and holds
    the cells the view shows. *)
Definition wf_array (w : world) (a : ndarray) : Prop :=
  exists buf, buffers w !! arr_base a = Some buf /\
              (arr_off a + arr_len a <= length buf)%nat.

(** A computation only allocates when it leaves the notes, the files and
    standard output as they were and keeps every buffer that existed, with
    its contents. *)
Definition only_allocates {A : Type} (m : M A) : Prop :=
  forall w : world,
    notes (m w).2 = notes w /\ files (m w).2 = files w /\
    stdout (m w).2 = stdout w /\ buffers w ⊆ buffers (m w).2.

(** The arrays a computation returns are new when their buffers did not
    exist before the call. *)
Definition returns_new (m : M ndarray) : Prop :=
  forall w r w', m w = (Ok r, w') -> arr_base r ∉ dom (buffers w).

(** The body of the comprehension of [normalize_waves_ref] for the
    elementwise operations [g] then [h] *)
Definition rescale (g h : float64 -> float64) (wave : ndarray) : M ndarray :=
  difference ← array_map g wave;
  array_map h difference.

(** * Properties *)

(** ** Running the monad *)

Lemma M_bind_Ok {A B : Type} (m : M A) (f : A -> M B) (w w' : world) (a : A) :
  m w = (Ok a, w') -> (m ≫= f) w = f a w'.
Proof. intros H. unfold mbind, M_bind. now rewrite H. Qed.

Lemma M_bind_Raise {A B : Type} (m : M A) (f : A -> M B) (w w' : world) (e : exn) :
  m w = (Raise e, w') -> (m ≫= f) w = (Raise e, w').
Proof. intros H. unfold mbind, M_bind. now rewrite H. Qed.

(** ** The notes table *)

Lemma NOTES_items_NoDup : NoDup (NOTES_items.*1).
Proof. apply (bool_decide_unpack _). vm_compute. reflexivity. Qed.

Lemma NOTES_lookup (note : string) (frequency : Q) :
  NOTES !! note = Some frequency <-> (note, frequency) ∈ NOTES_items.
Proof.
  unfold NOTES. symmetry. apply elem_of_list_to_map. exact NOTES_items_NoDup.
Qed.

Lemma keeps_notes_ret {A : Type} (a : A) : keeps_notes (mret a : M A).
Proof. intros w. reflexivity. Qed.

Lemma keeps_notes_lift {A : Type} (r : result A) : keeps_notes (lift r).
Proof. intros w. reflexivity. Qed.

Lemma keeps_notes_bind {A B : Type} (m : M A) (f : A -> M B) :
  keeps_notes m -> (forall a, keeps_notes (f a)) -> keeps_notes (m ≫= f).
Proof.
  intros Hm Hf w. specialize (Hm w). unfold mbind, M_bind.
  destruct (m w) as [[a|e] w1]; simpl in *.
  - now rewrite Hf.
  - exact Hm.
Qed.

Lemma keeps_notes_notes_getitem (note : string) : keeps_notes (notes_getitem note).
Proof. intros w. unfold notes_getitem. now destruct (notes w !! note). Qed.

Lemma keeps_notes_write_file (path : string) (f : file) : keeps_notes (write_file path f).
Proof. intros w. reflexivity. Qed.

Lemma keeps_notes_print (label : string) (value : float64) : keeps_notes (print label value).
Proof. intros w. reflexivity. Qed.

Lemma keeps_notes_array_read (a : ndarray) : keeps_notes (array_read a).
Proof. intros w. reflexivity. Qed.

Lemma keeps_notes_new_array (xs : list float64) : keeps_notes (new_array xs).
Proof. intros w. reflexivity. Qed.

Lemma keeps_notes_for_each {A B : Type} (f : A -> M B) (xs : list A) :
  (forall x, keeps_notes (f x)) -> keeps_notes (for_each f xs).
Proof.
  intros Hf. induction xs as [|x xs IH]; simpl.
  - apply keeps_notes_ret.
  - apply keeps_notes_bind; [apply Hf|]. intros y.
    apply keeps_notes_bind; [exact IH|]. intros ys. apply keeps_notes_ret.
Qed.

Create HintDb notes_frame.
#[local] Hint Resolve keeps_notes_ret keeps_notes_lift keeps_notes_notes_getitem
  keeps_notes_write_file keeps_notes_print keeps_notes_array_read
  keeps_notes_new_array : notes_frame.

Ltac keeps_notes_step :=
  first [ apply keeps_notes_bind; [|intros ?]
        | apply keeps_notes_for_each; intros ?
        | solve [auto with notes_frame] ].

Lemma keeps_notes_get_soundwave (timeline : list R) (note : string) :
  keeps_notes (get_soundwave timeline note).
Proof. unfold get_soundwave. repeat keeps_notes_step. Qed.

Lemma keeps_notes_create_note (note : string) (name : option string)
    (timeline : option (list R)) :
  keeps_notes (create_note note name timeline).
Proof.
  unfold create_note. simpl.
  apply keeps_notes_bind; [apply keeps_notes_get_soundwave|intros wave].
  repeat keeps_notes_step.
Qed.

Lemma keeps_notes_read_wave_from_txt (file_path : string) :
  keeps_notes (read_wave_from_txt file_path).
Proof.
  intros w. unfold read_wave_from_txt.
  destruct (files w !! file_path) as [[rate samples|samples]|]; reflexivity.
Qed.

Lemma keeps_notes_print_wave_details (wave : list R) (sampling_rate : option Z) :
  keeps_notes (print_wave_details wave sampling_rate).
Proof. unfold print_wave_details. repeat keeps_notes_step. Qed.

Lemma keeps_notes_save_wave (wave : list R) (file_name file_type : string) :
  keeps_notes (save_wave wave file_name file_type).
Proof. unfold save_wave. case_decide; apply keeps_notes_write_file. Qed.

Lemma keeps_notes_array_map (f : float64 -> float64) (a : ndarray) :
  keeps_notes (array_map f a).
Proof. unfold array_map. repeat keeps_notes_step. Qed.

Lemma keeps_notes_normalize_waves_ref (waves : list ndarray) :
  keeps_notes (normalize_waves_ref waves).
Proof.
  unfold normalize_waves_ref.
  repeat first [ apply keeps_notes_array_map | keeps_notes_step ].
Qed.

(** C3, as stated, fails: the notes other than the silence entry "0" are
    not 88 in number. *)
Lemma NOTES_not_88_notes : size (delete "0" NOTES) <> 88%nat.
Proof. vm_compute. discriminate. Qed.

(** C3 (amended): the table [NOTES] holds 96 note entries (twelve pitch
    names in each of the octaves 0 to 7) and the silence entry "0" of
    frequency zero, 97 entries in all; every entry other than "0" has a
    strictly positive frequency; and no method modifies the table. *)
Theorem NOTES_table :
  size (delete "0" NOTES) = 96%nat /\
  size NOTES = 97%nat /\
  NOTES !! "0" = Some 0%Q /\
  map_Forall (fun note frequency => note <> "0" -> (0 < frequency)%Q) NOTES /\
  (forall timeline note, keeps_notes (get_soundwave timeline note)) /\
  (forall note name timeline, keeps_notes (create_note note name timeline)) /\
  (forall file_path, keeps_notes (read_wave_from_txt file_path)) /\
  (forall wave sampling_rate, keeps_notes (print_wave_details wave sampling_rate)) /\
  (forall waves, keeps_notes (normalize_waves_ref waves)) /\
  (forall wave file_name file_type, keeps_notes (save_wave wave file_name file_type)).
Proof.
  split; [vm_compute; reflexivity|].
  split; [vm_compute; reflexivity|].
  split; [vm_compute; reflexivity|].
  split.
  { intros note frequency Hlook Hne. apply NOTES_lookup in Hlook.
    assert (Hall : Forall (fun p : string * Q => p.1 <> "0" -> (0 < p.2)%Q) NOTES_items).
    { unfold NOTES_items.
      repeat (apply Forall_cons; split;
              [simpl; intros Hk; first [now exfalso; apply Hk | reflexivity]|]).
      apply Forall_nil_2. }
    rewrite Forall_forall in Hall. exact (Hall _ Hlook Hne). }
  repeat split; intros.
  - apply keeps_notes_get_soundwave.
  - apply keeps_notes_create_note.
  - apply keeps_notes_read_wave_from_txt.
  - apply keeps_notes_print_wave_details.
  - apply keeps_notes_normalize_waves_ref.
  - apply keeps_notes_save_wave.
Qed.

(** ** Note lookup *)

Lemma get_soundwave_Some (w : world) (timeline : list R) (note : string) (frequency : Q) :
  notes w !! note = Some frequency ->
  get_soundwave timeline note w = (Ok (get_normed_sin timeline (Q2R frequency)), w).
Proof.
  intros H. unfold get_soundwave.
  erewrite M_bind_Ok; [reflexivity|]. unfold notes_getitem. now rewrite H.
Qed.

Lemma get_soundwave_None (w : world) (timeline : list R) (note : string) :
  notes w !! note = None ->
  get_soundwave timeline note w = (Raise KeyError, w).
Proof.
  intros H. unfold get_soundwave.
  apply M_bind_Raise. unfold notes_getitem. now rewrite H.
Qed.

Lemma create_note_Some (w : world) (note : string) (name : option string)
    (timeline : option (list R)) (frequency : Q) :
  notes w !! note = Some frequency ->
  let sound_wave :=
    map astype_int16
        (get_normed_sin (default common_timeline timeline) (Q2R frequency)) in
  create_note note name timeline w =
    (Ok sound_wave,
     {| notes := notes w;
        files := <[file_name note name := WavFile SAMPLING_RATE sound_wave]> (files w);
        stdout := stdout w; buffers := buffers w |}).
Proof.
  intros H. unfold create_note. simpl.
  erewrite M_bind_Ok; [|apply get_soundwave_Some, H].
  reflexivity.
Qed.

Lemma create_note_None (w : world) (note : string) (name : option string)
    (timeline : option (list R)) :
  notes w !! note = None ->
  create_note note name timeline w = (Raise KeyError, w).
Proof.
  intros H. unfold create_note. simpl.
  apply M_bind_Raise, get_soundwave_None, H.
Qed.

(** C7: for a note that is not a key of the notes table, [get_soundwave]
    and [create_note] raise KeyError, return no waveform and leave the
    world as it was (no file is written); for a note that is a key, the
    lookup succeeds and [get_soundwave] returns the waveform of its
    frequency. The identifier "z9" is not a key of [NOTES]. *)
Theorem unknown_note_KeyError (w : world) (timeline : list R) (note : string) :
  (notes w !! note = None ->
     get_soundwave timeline note w = (Raise KeyError, w) /\
     forall name timeline', create_note note name timeline' w = (Raise KeyError, w)) /\
  (forall frequency, notes w !! note = Some frequency ->
     get_soundwave timeline note w =
       (Ok (get_normed_sin timeline (Q2R frequency)), w)) /\
  NOTES !! "z9" = None.
Proof.
  split; [|split].
  - intros H. split; [now apply get_soundwave_None|].
    intros name timeline'. now apply create_note_None.
  - intros frequency H. now apply get_soundwave_Some.
  - vm_compute. reflexivity.
Qed.

Lemma unknown_note_KeyError_witness :
  get_soundwave [0; 1] "z9" initial_world = (Raise KeyError, initial_world) /\
  get_soundwave [0; 1] "a4" initial_world =
    (Ok (get_normed_sin [0; 1] (Q2R 440.0000)), initial_world).
Proof.
  split.
  - apply (unknown_note_KeyError initial_world [0; 1] "z9"). vm_compute. reflexivity.
  - apply (unknown_note_KeyError initial_world [0; 1] "a4"). vm_compute. reflexivity.
Defined.

(** ** The file written by [create_note] *)

Lemma replace_length (old new : Ascii.ascii) (s : string) :
  String.length (replace old new s) = String.length s.
Proof. induction s as [|c s IH]; simpl; congruence. Qed.

Lemma replace_get (old new : Ascii.ascii) (s : string) (i : nat) :
  String.get i (replace old new s) =
    (fun c => if decide (c = old) then new else c) <$> String.get i s.
Proof.
  revert i. induction s as [|c s IH]; intros i; simpl; [reflexivity|].
  destruct i as [|i]; [reflexivity|]. apply IH.
Qed.

(** C6: [create_note] on a note of the table writes exactly one file, a WAV
    file holding the returned samples. With a name given the file is
    "<name>.wav". Without a name its name has the length of
    "<note>_sin.wav" and, position by position, the characters of
    "<note>_sin.wav" with 's' in place of each '#'; for the note "a#4" that
    is "as4_sin.wav". *)
Theorem create_note_file_name (w : world) (note : string) (name : option string)
    (timeline : option (list R)) (frequency : Q) :
  notes w !! note = Some frequency ->
  exists (sound_wave : list Z) (path : string),
    create_note note name timeline w =
      (Ok sound_wave,
       {| notes := notes w;
          files := <[path := WavFile SAMPLING_RATE sound_wave]> (files w);
          stdout := stdout w; buffers := buffers w |}) /\
    match name with
    | Some name' => path = name' +:+ ".wav"
    | None =>
        String.length path = String.length (note +:+ "_sin.wav") /\
        (forall i c, String.get i (note +:+ "_sin.wav") = Some c ->
           String.get i path = Some (if decide (c = "#"%char) then "s"%char else c)) /\
        (note = "a#4" -> path = "as4_sin.wav")
    end.
Proof.
  intros H. eexists _, (file_name note name). split.
  - apply (create_note_Some w note name timeline frequency H).
  - destruct name as [name'|]; simpl; [reflexivity|].
    split; [apply replace_length|]. split.
    + intros i c Hget. rewrite replace_get, Hget. reflexivity.
    + intros ->. reflexivity.
Qed.

Lemma create_note_file_name_witness :
  exists (sound_wave : list Z) (path : string),
    create_note "a#4" None (Some [0]) initial_world =
      (Ok sound_wave,
       {| notes := NOTES;
          files := <[path := WavFile SAMPLING_RATE sound_wave]> ∅;
          stdout := []; buffers := ∅ |}) /\
    path = "as4_sin.wav".
Proof.
  destruct (create_note_file_name initial_world "a#4" None (Some [0]) 466.1638%Q)
    as (sound_wave & path & Hrun & _ & _ & Hpath).
  - vm_compute. reflexivity.
  - exists sound_wave, path. split; [exact Hrun|]. apply Hpath. reflexivity.
Defined.

(** ** Length and range of a synthesised wave *)

Lemma linspace_length (start stop : R) (num : nat) :
  length (linspace start stop num) = num.
Proof. unfold linspace. now rewrite length_map, length_seq. Qed.

Lemma common_timeline_length : Z.of_nat (length common_timeline) = 220500%Z.
Proof.
  unfold common_timeline. rewrite linspace_length.
  rewrite Z2Nat.id; [reflexivity|]. vm_compute. discriminate.
Qed.

Lemma get_normed_sin_length (timeline : list R) (frequency : R) :
  length (get_normed_sin timeline frequency) = length timeline.
Proof. unfold get_normed_sin. apply length_map. Qed.

Lemma MAX_AMPLITUDE_value : IZR MAX_AMPLITUDE = 8192.
Proof. reflexivity. Qed.

Lemma get_normed_sin_range (timeline : list R) (frequency : R) :
  Forall (fun x => -8192 <= x <= 8192) (get_normed_sin timeline frequency).
Proof.
  unfold get_normed_sin. apply Forall_map, Forall_forall. intros t _. simpl.
  rewrite MAX_AMPLITUDE_value.
  pose proof (SIN_bound (2 * PI * frequency * t)). lra.
Qed.

(** C8: for a note of the table, [get_soundwave] returns a wave as long as
    the timeline it is given, with every sample in [-8192, 8192]; over the
    default timeline the wave has 44100 * 5 = 220500 samples; the wave
    returned by [create_note] is as long as the timeline it used. *)
Theorem synthesized_wave_length_range (w : world) (note : string) (frequency : Q)
    (timeline : list R) :
  notes w !! note = Some frequency ->
  (exists wave, get_soundwave timeline note w = (Ok wave, w) /\
     length wave = length timeline /\
     Forall (fun x => -8192 <= x <= 8192) wave) /\
  (exists wave, get_soundwave common_timeline note w = (Ok wave, w) /\
     length wave = length common_timeline /\
     Z.of_nat (length wave) = 220500%Z /\
     (SAMPLING_RATE * DURATION_SECONDS = 220500)%Z /\
     Forall (fun x => -8192 <= x <= 8192) wave) /\
  (forall name timeline', exists sound_wave w',
     create_note note name timeline' w = (Ok sound_wave, w') /\
     length sound_wave = length (default common_timeline timeline')).
Proof.
  intros H. split; [|split].
  - eexists. split; [apply get_soundwave_Some, H|].
    split; [apply get_normed_sin_length|apply get_normed_sin_range].
  - eexists. split; [apply get_soundwave_Some, H|].
    split; [apply get_normed_sin_length|].
    split; [rewrite get_normed_sin_length; apply common_timeline_length|].
    split; [reflexivity|apply get_normed_sin_range].
  - intros name timeline'. eexists _, _.
    split; [apply (create_note_Some w note name timeline' frequency H)|].
    simpl. now rewrite length_map, get_normed_sin_length.
Qed.

Lemma synthesized_wave_length_range_witness :
  exists wave, get_soundwave common_timeline "a4" initial_world = (Ok wave, initial_world) /\
    Z.of_nat (length wave) = 220500%Z /\
    Forall (fun x => -8192 <= x <= 8192) wave.
Proof.
  destruct (synthesized_wave_length_range initial_world "a4" 440.0000%Q [0])
    as (_ & (wave & Hrun & _ & Hlen & _ & Hrange) & _).
  - vm_compute. reflexivity.
  - exists wave. repeat split; assumption.
Defined.

(** ** Quantisation to int16 *)

Lemma Int_part_IZR (z : Z) : Int_part (IZR z) = z.
Proof. symmetry. apply Int_part_spec. lra. Qed.

Lemma Rtrunc_IZR (z : Z) : Rtrunc (IZR z) = z.
Proof.
  unfold Rtrunc. case_decide.
  - apply Int_part_IZR.
  - rewrite <- opp_IZR, Int_part_IZR. lia.
Qed.

Lemma Int_part_bounds (x : R) (n : Z) :
  0 <= x <= IZR n -> (0 <= Int_part x <= n)%Z.
Proof.
  intros [Hlo Hhi]. destruct (base_Int_part x) as [H1 H2]. split.
  - assert (IZR (-1) < IZR (Int_part x)) as H%lt_IZR by (simpl; lra). lia.
  - apply le_IZR. lra.
Qed.

Lemma Rtrunc_bounds (x : R) (n : Z) :
  - IZR n <= x <= IZR n -> (- n <= Rtrunc x <= n)%Z.
Proof.
  intros [Hlo Hhi]. unfold Rtrunc. case_decide as H0.
  - destruct (Int_part_bounds x n); [lra|lia].
  - destruct (Int_part_bounds (- x) n); [lra|lia].
Qed.

Lemma wrap16_in_range (z : Z) : (-32768 <= z <= 32767)%Z -> wrap16 z = z.
Proof. intros H. unfold wrap16. rewrite Z.mod_small; lia. Qed.

Lemma astype_int16_bounds (x : R) :
  -8192 <= x <= 8192 -> (-8192 <= astype_int16 x <= 8192)%Z.
Proof.
  intros H. unfold astype_int16.
  assert (Ht : (- (8192) <= Rtrunc x <= 8192)%Z)
    by (apply (Rtrunc_bounds x 8192); simpl; lra).
  rewrite wrap16_in_range; lia.
Qed.

Lemma a4_quarter_period : sin (2 * PI * Q2R 440.0000 * / 1760) = 1.
Proof.
  replace (2 * PI * Q2R 440.0000 * / 1760) with (PI / 2).
  - apply sin_PI2.
  - unfold Q2R. simpl. lra.
Qed.

(** C4, as stated, fails: for the note "a4" and the one-instant timeline
    [1/1760] (a quarter of the period of 440 Hz) the sine is 1 and
    [create_note] returns the sample 8192, which exceeds 8191. *)
Lemma create_note_sample_8192 :
  (create_note "a4" None (Some [/ 1760]) initial_world).1 = Ok [8192%Z] /\
  ~ Forall (fun z => (-8192 <= z <= 8191)%Z) [8192%Z].
Proof.
  split.
  - rewrite (create_note_Some initial_world "a4" None (Some [/ 1760]) 440.0000%Q)
      by (vm_compute; reflexivity).
    simpl. rewrite a4_quarter_period, Rmult_1_r, MAX_AMPLITUDE_value.
    unfold astype_int16. rewrite (Rtrunc_IZR 8192). reflexivity.
  - intros H. apply Forall_cons in H as [H _]. lia.
Qed.

(** C4 (amended): for every note of the table and every timeline, each
    int16 sample returned by [create_note] lies in [-8192, 8192]. *)
Theorem create_note_sample_range (w : world) (note : string) (frequency : Q)
    (name : option string) (timeline : option (list R)) :
  notes w !! note = Some frequency ->
  exists sound_wave w',
    create_note note name timeline w = (Ok sound_wave, w') /\
    Forall (fun z => (-8192 <= z <= 8192)%Z) sound_wave.
Proof.
  intros H. eexists _, _.
  split; [apply (create_note_Some w note name timeline frequency H)|].
  simpl. apply Forall_map.
  eapply Forall_impl; [apply get_normed_sin_range|].
  intros x Hx. now apply astype_int16_bounds.
Qed.

Lemma create_note_sample_range_witness :
  exists sound_wave w',
    create_note "a4" None (Some [/ 1760]) initial_world = (Ok sound_wave, w') /\
    Forall (fun z => (-8192 <= z <= 8192)%Z) sound_wave.
Proof.
  apply (create_note_sample_range initial_world "a4" 440.0000%Q).
  vm_compute. reflexivity.
Defined.

(** ** Minimum and maximum of a list *)

Section FoldMin.
Context {A : Type} (le : relation A) (least : A -> A -> A).
Hypothesis le_refl : forall a, le a a.
Hypothesis le_trans : forall a b c, le a b -> le b c -> le a c.
Hypothesis le_antisym : forall a b, le a b -> le b a -> a = b.
Hypothesis least_cases : forall a b, least a b = a \/ least a b = b.
Hypothesis least_l : forall a b, le (least a b) a.
Hypothesis least_r : forall a b, le (least a b) b.

Lemma foldl_least_is_minimum (xs : list A) (x : A) :
  is_minimum le (foldl least x xs) (x :: xs).
Proof using le_refl le_trans least_cases least_l least_r.
  revert x. induction xs as [|y xs IH]; intros x; simpl.
  - split; [left|]. repeat constructor. apply le_refl.
  - destruct (IH (least x y)) as [Hin Hall].
    apply Forall_cons in Hall as [Hxy Hall]. split.
    + apply elem_of_cons in Hin as [->|Hin].
      * destruct (least_cases x y) as [-> | ->]; [left|right; left].
      * right; right; exact Hin.
    + repeat apply Forall_cons_2; eauto.
Qed.

Lemma is_minimum_unique (xs : list A) (m m' : A) :
  is_minimum le m xs -> is_minimum le m' xs -> m = m'.
Proof using le_antisym.
  intros [Hin Hall] [Hin' Hall']. rewrite Forall_forall in Hall, Hall'.
  apply le_antisym; auto.
Qed.
End FoldMin.

Lemma py_min_is_minimum (ns : list nat) (k : nat) :
  is_minimum le k ns -> py_min ns = Ok k.
Proof.
  intros Hk. destruct ns as [|n ns]; [destruct Hk as [Hin _]; inversion Hin|].
  simpl. f_equal.
  eapply (is_minimum_unique le); [intros; lia | | exact Hk].
  apply foldl_least_is_minimum; intros; lia.
Qed.

Lemma f_min_Fin (a b : R) : f_min (Fin a) (Fin b) = Fin (Rmin a b).
Proof.
  unfold f_min, f_leb, Rmin, bool_decide, decide, Rle_decision.
  now destruct (Rle_dec a b).
Qed.

Lemma f_max_Fin (a b : R) : f_max (Fin a) (Fin b) = Fin (Rmax a b).
Proof.
  unfold f_max, f_leb, Rmax, bool_decide, decide, Rle_decision.
  now destruct (Rle_dec a b).
Qed.

Lemma foldl_f_min_Fin (xs : list R) (x : R) :
  foldl f_min (Fin x) (as_array xs) = Fin (foldl Rmin x xs).
Proof.
  revert x. induction xs as [|y xs IH]; intros x; [reflexivity|].
  change (as_array (y :: xs)) with (Fin y :: as_array xs). cbn [foldl].
  now rewrite f_min_Fin, IH.
Qed.

Lemma foldl_f_max_Fin (xs : list R) (x : R) :
  foldl f_max (Fin x) (as_array xs) = Fin (foldl Rmax x xs).
Proof.
  revert x. induction xs as [|y xs IH]; intros x; [reflexivity|].
  change (as_array (y :: xs)) with (Fin y :: as_array xs). cbn [foldl].
  now rewrite f_max_Fin, IH.
Qed.

Lemma np_min_is_minimum (xs : list R) (m : R) :
  is_minimum Rle m xs -> np_min (as_array xs) = Ok (Fin m).
Proof.
  intros Hm. destruct xs as [|x xs]; [destruct Hm as [Hin _]; inversion Hin|].
  simpl. rewrite foldl_f_min_Fin. do 2 f_equal.
  eapply (is_minimum_unique Rle); [intros; lra | | exact Hm].
  apply foldl_least_is_minimum; intros; unfold Rmin;
    try destruct (Rle_dec _ _); auto; lra.
Qed.

Lemma np_max_is_maximum (xs : list R) (m : R) :
  is_minimum Rge m xs -> np_max (as_array xs) = Ok (Fin m).
Proof.
  intros Hm. destruct xs as [|x xs]; [destruct Hm as [Hin _]; inversion Hin|].
  simpl. rewrite foldl_f_max_Fin. do 2 f_equal.
  eapply (is_minimum_unique Rge); [intros; lra | | exact Hm].
  apply foldl_least_is_minimum; intros; unfold Rmax;
    try destruct (Rle_dec _ _); auto; lra.
Qed.

(** ** Normalisation of waves of real amplitudes *)








(** C9: called with no wave, [normalize_waves] raises ValueError (the
    builtin [min] of an empty list of lengths) and does not return the
    empty list; so does the method on array references, leaving the world
    as it was. *)
Theorem normalize_waves_no_argument :
  normalize_waves [] = Raise ValueError /\
  normalize_waves [] <> Ok [] /\
  forall w, normalize_waves_ref [] w = (Raise ValueError, w).
Proof.
  split; [reflexivity|]. split; [discriminate|]. intros w. reflexivity.
Qed.

(** ** The degenerate range *)

Ltac float_cases :=
  unfold f_eqb, f_ltb, f_min, f_max, f_leb, f_sub, f_div in *;
  repeat (case_bool_decide || case_decide);
  simpl in *; try congruence; try lra.

Lemma f_leb_refl (a : float64) : a <> NaN -> f_leb a a = true.
Proof. destruct a; intros; float_cases. Qed.

Lemma f_min_lower (m x y : float64) :
  f_leb m (f_min x y) = true -> f_leb m x = true /\ f_leb m y = true.
Proof. destruct m, x, y; intros; split; float_cases. Qed.

Lemma f_max_upper (m x y : float64) :
  f_leb (f_max x y) m = true -> f_leb x m = true /\ f_leb y m = true.
Proof. destruct m, x, y; intros; split; float_cases. Qed.

Lemma foldl_f_min_lower (xs : list float64) (x m : float64) :
  foldl f_min x xs = m -> m <> NaN ->
  Forall (fun y => f_leb m y = true) (x :: xs).
Proof.
  revert x. induction xs as [|y xs IH]; intros x Hm Hnan; simpl in Hm.
  - subst. repeat constructor. now apply f_leb_refl.
  - specialize (IH _ Hm Hnan). apply Forall_cons in IH as [Hxy Hall].
    apply f_min_lower in Hxy as [Hx Hy]. now repeat apply Forall_cons_2.
Qed.

Lemma foldl_f_max_upper (xs : list float64) (x m : float64) :
  foldl f_max x xs = m -> m <> NaN ->
  Forall (fun y => f_leb y m = true) (x :: xs).
Proof.
  revert x. induction xs as [|y xs IH]; intros x Hm Hnan; simpl in Hm.
  - subst. repeat constructor. now apply f_leb_refl.
  - specialize (IH _ Hm Hnan). apply Forall_cons in IH as [Hxy Hall].
    apply f_max_upper in Hxy as [Hx Hy]. now repeat apply Forall_cons_2.
Qed.

Lemma f_eqb_not_nan (a b : float64) : f_eqb a b = true -> a <> NaN /\ b <> NaN.
Proof. destruct a, b; intros; split; float_cases. Qed.

Lemma scale_degenerate (y mn mx : float64) :
  f_leb mn y = true -> f_leb y mx = true -> f_eqb mx mn = true ->
  f_div (f_sub y mn) (f_sub mx mn) = NaN.
Proof. destruct y, mn, mx; intros; float_cases. Qed.

(** C2, as stated, fails: for two constant and equal waves the global
    maximum equals the global minimum and [normalize_waves] raises nothing;
    it returns waves of [nan]. *)
Lemma normalize_waves_constant_returns :
  let waves := [as_array [1; 1]; as_array [1; 1]] in
  np_min (concat (map (take 2) waves)) = Ok (Fin 1) /\
  np_max (concat (map (take 2) waves)) = Ok (Fin 1) /\
  normalize_waves waves = Ok [[NaN; NaN]; [NaN; NaN]] /\
  forall e, normalize_waves waves <> Raise e.
Proof.
  assert (Hmin : np_min [Fin 1; Fin 1; Fin 1; Fin 1] = Ok (Fin 1)).
  { apply (np_min_is_minimum [1; 1; 1; 1]). split; [left|repeat constructor; lra]. }
  assert (Hmax : np_max [Fin 1; Fin 1; Fin 1; Fin 1] = Ok (Fin 1)).
  { apply (np_max_is_maximum [1; 1; 1; 1]). split; [left|repeat constructor; lra]. }
  assert (Hnan : f_div (f_sub (Fin 1) (Fin 1)) (f_sub (Fin 1) (Fin 1)) = NaN).
  { apply scale_degenerate; unfold f_eqb, f_leb;
      rewrite ?bool_decide_eq_true_2; auto; lra. }
  assert (Hrun : normalize_waves [as_array [1; 1]; as_array [1; 1]] =
                 Ok [[NaN; NaN]; [NaN; NaN]]).
  { unfold normalize_waves.
    cbn [map length py_min foldl Nat.min mbind result_bind as_array take concat app].
    rewrite Hmin, Hmax. cbn [mbind result_bind mret result_ret map].
    now rewrite Hnan. }
  cbn [as_array map take concat app] in *. repeat split; try assumption.
  intros e. rewrite Hrun. discriminate.
Qed.

(** C2 (amended): when, after the cut to the least length, the global
    maximum equals the global minimum, [normalize_waves] raises nothing:
    the division by zero is not guarded and follows IEEE 754, so the call
    returns the waves cut to the least length with every sample replaced
    by [nan]. *)
Theorem normalize_waves_degenerate (waves : list (list float64)) (k : nat)
    (mn mx : float64) :
  py_min (map length waves) = Ok k ->
  np_min (concat (map (take k) waves)) = Ok mn ->
  np_max (concat (map (take k) waves)) = Ok mx ->
  f_eqb mx mn = true ->
  normalize_waves waves = Ok (map (fun w => map (fun _ => NaN) (take k w)) waves) /\
  forall e, normalize_waves waves <> Raise e.
Proof.
  intros Hk Hmn Hmx Heq.
  assert (Hrun : normalize_waves waves =
                 Ok (map (fun w => map (fun _ => NaN) (take k w)) waves)).
  { unfold normalize_waves. rewrite Hk. cbn [mbind result_bind].
    rewrite Hmn, Hmx. cbn [mbind result_bind mret result_ret]. f_equal.
    rewrite map_map. apply map_ext_in. intros w Hw.
    apply map_ext_in. intros y Hy.
    assert (Hin : y ∈ concat (map (take k) waves)).
    { apply list_elem_of_In, in_concat. exists (take k w).
      split; [now apply in_map|exact Hy]. }
    apply f_eqb_not_nan in Heq as Hnan. destruct Hnan as [Hmxn Hmnn].
    destruct (concat (map (take k) waves)) as [|x xs]; [inversion Hin|].
    simpl in Hmn, Hmx. injection Hmn as Hmn. injection Hmx as Hmx.
    pose proof (foldl_f_min_lower xs x mn Hmn Hmnn) as Hlo.
    pose proof (foldl_f_max_upper xs x mx Hmx Hmxn) as Hhi.
    rewrite Forall_forall in Hlo, Hhi.
    apply scale_degenerate; auto. }
  split; [exact Hrun|]. intros e. rewrite Hrun. discriminate.
Qed.

Lemma normalize_waves_degenerate_witness :
  normalize_waves [[Fin 1; Fin 1; Fin 0]; [Fin 1; Fin 1]] =
    Ok [[NaN; NaN]; [NaN; NaN]].
Proof.
  apply (normalize_waves_degenerate [[Fin 1; Fin 1; Fin 0]; [Fin 1; Fin 1]] 2
           (Fin 1) (Fin 1)).
  - reflexivity.
  - apply (np_min_is_minimum [1; 1; 1; 1]). split; [left|repeat constructor; lra].
  - apply (np_max_is_maximum [1; 1; 1; 1]). split; [left|repeat constructor; lra].
  - unfold f_eqb, f_leb. rewrite bool_decide_eq_true_2 by lra. reflexivity.
Defined.

(** ** Arrays passed by reference *)

Lemma only_allocates_ret {A : Type} (a : A) : only_allocates (mret a : M A).
Proof. intros w. simpl. auto. Qed.

Lemma only_allocates_lift {A : Type} (r : result A) : only_allocates (lift r).
Proof. intros w. simpl. auto. Qed.

Lemma only_allocates_array_read (a : ndarray) : only_allocates (array_read a).
Proof. intros w. simpl. auto. Qed.

Lemma fresh_buffer (w : world) : buffers w !! fresh (dom (buffers w)) = None.
Proof. apply not_elem_of_dom, is_fresh. Qed.

Lemma only_allocates_new_array (xs : list float64) : only_allocates (new_array xs).
Proof.
  intros w. simpl. repeat split.
  apply insert_subseteq, fresh_buffer.
Qed.

Lemma only_allocates_bind {A B : Type} (m : M A) (f : A -> M B) :
  only_allocates m -> (forall a, only_allocates (f a)) -> only_allocates (m ≫= f).
Proof.
  intros Hm Hf w. specialize (Hm w). unfold mbind, M_bind.
  destruct (m w) as [[a|e] w1]; simpl in *; [|exact Hm].
  destruct Hm as (Hn & Hfi & Hs & Hb), (Hf a w1) as (Hn' & Hfi' & Hs' & Hb').
  repeat split; try congruence. now transitivity (buffers w1).
Qed.

Lemma only_allocates_for_each {A B : Type} (f : A -> M B) (xs : list A) :
  (forall x, only_allocates (f x)) -> only_allocates (for_each f xs).
Proof.
  intros Hf. induction xs as [|x xs IH]; simpl.
  - apply only_allocates_ret.
  - apply only_allocates_bind; [apply Hf|]. intros y.
    apply only_allocates_bind; [exact IH|]. intros ys. apply only_allocates_ret.
Qed.

Lemma only_allocates_array_map (f : float64 -> float64) (a : ndarray) :
  only_allocates (array_map f a).
Proof.
  unfold array_map. apply only_allocates_bind; [apply only_allocates_array_read|].
  intros xs. apply only_allocates_new_array.
Qed.

Lemma only_allocates_normalize_waves_ref (waves : list ndarray) :
  only_allocates (normalize_waves_ref waves).
Proof.
  unfold normalize_waves_ref.
  apply only_allocates_bind; [apply only_allocates_lift|]. intros k.
  apply only_allocates_bind;
    [apply only_allocates_for_each, only_allocates_array_read|]. intros contents.
  apply only_allocates_bind; [apply only_allocates_lift|]. intros mn.
  apply only_allocates_bind; [apply only_allocates_lift|]. intros mx.
  apply only_allocates_for_each. intros wave.
  apply only_allocates_bind; intros; apply only_allocates_array_map.
Qed.

Lemma read_array_weaken (w w' : world) (a : ndarray) :
  wf_array w a -> buffers w ⊆ buffers w' -> read_array w' a = read_array w a.
Proof.
  intros (buf & Hbuf & _) Hsub. unfold read_array.
  now rewrite (lookup_weaken _ _ _ _ Hbuf Hsub), Hbuf.
Qed.

Lemma wf_array_weaken (w w' : world) (a : ndarray) :
  wf_array w a -> buffers w ⊆ buffers w' -> wf_array w' a.
Proof.
  intros (buf & Hbuf & Hlen) Hsub. exists buf.
  split; [exact (lookup_weaken _ _ _ _ Hbuf Hsub)|exact Hlen].
Qed.

Lemma returns_new_new_array (xs : list float64) : returns_new (new_array xs).
Proof.
  intros w r w' H. unfold new_array in H. injection H as <- _. simpl. apply is_fresh.
Qed.

Lemma returns_new_array_map (f : float64 -> float64) (a : ndarray) :
  returns_new (array_map f a).
Proof.
  intros w r w' H. unfold array_map in H.
  erewrite M_bind_Ok in H by reflexivity.
  exact (returns_new_new_array _ _ _ _ H).
Qed.

Lemma for_each_returns_new {A : Type} (f : A -> M ndarray) (xs : list A) :
  (forall x, only_allocates (f x)) -> (forall x, returns_new (f x)) ->
  forall w rs w', for_each f xs w = (Ok rs, w') ->
    Forall (fun r => arr_base r ∉ dom (buffers w)) rs.
Proof.
  intros Hal Hnew. induction xs as [|x xs IH]; intros w rs w' H; simpl in H.
  - injection H as <- _. constructor.
  - unfold mbind, M_bind in H.
    destruct (f x w) as [[y|e] w1] eqn:Hx; [|discriminate].
    destruct (for_each f xs w1) as [[ys|e] w2] eqn:Hxs; [|discriminate].
    injection H as <- _. constructor.
    + exact (Hnew x w y w1 Hx).
    + destruct (Hal x w) as (_ & _ & _ & Hsub). rewrite Hx in Hsub. simpl in Hsub.
      eapply Forall_impl; [exact (IH w1 ys w2 Hxs)|].
      intros r Hr Hin. apply Hr.
      apply subseteq_dom in Hsub. now apply Hsub.
Qed.

(** *** The method on references computes [normalize_waves] *)

Lemma for_each_array_read (w : world) (arrays : list ndarray) :
  for_each array_read arrays w = (Ok (map (read_array w) arrays), w).
Proof.
  induction arrays as [|a arrays IH]; simpl; [reflexivity|].
  erewrite M_bind_Ok by reflexivity. erewrite M_bind_Ok by exact IH. reflexivity.
Qed.

Lemma read_array_slice_to (w : world) (k : nat) (a : ndarray) :
  read_array w (slice_to k a) = take k (read_array w a).
Proof. unfold read_array, slice_to. simpl. now rewrite take_take. Qed.

Lemma read_array_length (w : world) (a : ndarray) :
  wf_array w a -> length (read_array w a) = arr_len a.
Proof.
  intros (buf & Hbuf & Hlen). unfold read_array. rewrite Hbuf. simpl.
  rewrite length_take, length_drop. lia.
Qed.

Lemma wf_array_slice_to (w : world) (k : nat) (a : ndarray) :
  wf_array w a -> wf_array w (slice_to k a).
Proof.
  intros (buf & Hbuf & Hlen). exists buf. split; [exact Hbuf|]. simpl. lia.
Qed.

Lemma new_array_spec (w : world) (xs : list float64) :
  exists r w', new_array xs w = (Ok r, w') /\
    read_array w' r = xs /\ wf_array w' r.
Proof.
  eexists _, _. split; [reflexivity|]. split.
  - unfold read_array. simpl. rewrite lookup_insert_eq. simpl.
    rewrite drop_0. now apply take_ge.
  - exists xs. simpl. rewrite lookup_insert_eq. split; [reflexivity|lia].
Qed.

Lemma array_map_spec (w : world) (f : float64 -> float64) (a : ndarray) :
  exists r w', array_map f a w = (Ok r, w') /\
    read_array w' r = map f (read_array w a) /\ wf_array w' r.
Proof.
  destruct (new_array_spec w (map f (read_array w a))) as (r & w' & Hrun & Hspec).
  exists r, w'. split; [|exact Hspec].
  unfold array_map. erewrite M_bind_Ok by reflexivity. exact Hrun.
Qed.

Section Rescale.
Variables (g h : float64 -> float64).

Lemma only_allocates_rescale (wave : ndarray) : only_allocates (rescale g h wave).
Proof.
  apply only_allocates_bind; intros; apply only_allocates_array_map.
Qed.

Lemma rescale_spec (w : world) (wave : ndarray) :
  exists r w', rescale g h wave w = (Ok r, w') /\
    read_array w' r = map h (map g (read_array w wave)) /\ wf_array w' r.
Proof.
  destruct (array_map_spec w g wave) as (d & w1 & Hd & Hread & _).
  destruct (array_map_spec w1 h d) as (r & w' & Hr & Hread' & Hwf).
  exists r, w'. split; [|split; [congruence|exact Hwf]].
  unfold rescale. erewrite M_bind_Ok by exact Hd. exact Hr.
Qed.

Lemma for_each_rescale_spec (w0 : world) (arrays : list ndarray) :
  Forall (wf_array w0) arrays ->
  forall w, buffers w0 ⊆ buffers w ->
  exists rs w', for_each (rescale g h) arrays w = (Ok rs, w') /\
    map (read_array w') rs = map (fun a => map h (map g (read_array w0 a))) arrays /\
    Forall (wf_array w') rs.
Proof.
  induction 1 as [|a arrays Hwf _ IH]; intros w Hsub.
  - exists [], w. repeat split. constructor.
  - destruct (rescale_spec w a) as (r & w1 & Hr & Hread & Hwfr).
    assert (Hsub1 : buffers w ⊆ buffers w1).
    { destruct (only_allocates_rescale a w) as (_ & _ & _ & Hs).
      now rewrite Hr in Hs. }
    destruct (IH w1) as (rs & w' & Hrs & Hreads & Hwfs);
      [now transitivity (buffers w)|].
    assert (Hsub' : buffers w1 ⊆ buffers w').
    { destruct (only_allocates_for_each (rescale g h) arrays only_allocates_rescale w1)
        as (_ & _ & _ & Hs). now rewrite Hrs in Hs. }
    exists (r :: rs), w'. split; [|split].
    + simpl. erewrite M_bind_Ok by exact Hr.
      erewrite M_bind_Ok by exact Hrs. reflexivity.
    + simpl. f_equal; [|exact Hreads].
      rewrite (read_array_weaken w1 w' r Hwfr Hsub'), Hread.
      now rewrite (read_array_weaken w0 w a Hwf Hsub).
    + constructor; [exact (wf_array_weaken w1 w' r Hwfr Hsub')|exact Hwfs].
Qed.
End Rescale.

(** On well-formed references the method raises when [normalize_waves]
    raises on the contents, leaving the world as it was, and otherwise
    returns references to arrays holding what [normalize_waves] returns. *)
Lemma normalize_waves_ref_refines (w : world) (waves : list ndarray) :
  Forall (wf_array w) waves ->
  match normalize_waves (map (read_array w) waves) with
  | Ok out =>
      exists refs w', normalize_waves_ref waves w = (Ok refs, w') /\
        map (read_array w') refs = out
  | Raise e => normalize_waves_ref waves w = (Raise e, w)
  end.
Proof.
  intros Hwf. unfold normalize_waves, normalize_waves_ref.
  assert (Hlen : map length (map (read_array w) waves) = map arr_len waves).
  { rewrite map_map. apply Forall_fmap_ext_1.
    eapply Forall_impl; [exact Hwf|]. intros a. apply read_array_length. }
  rewrite Hlen. destruct (py_min (map arr_len waves)) as [k|e]; [|reflexivity].
  cbn [mbind result_bind].
  erewrite (M_bind_Ok (lift (Ok k))) by reflexivity.
  erewrite M_bind_Ok by apply for_each_array_read.
  assert (Htrim : map (read_array w) (map (slice_to k) waves) =
                  map (take k) (map (read_array w) waves)).
  { rewrite !map_map. apply map_ext. intros a. apply read_array_slice_to. }
  rewrite Htrim.
  destruct (np_min (concat (map (take k) (map (read_array w) waves)))) as [mn|e];
    [|reflexivity].
  cbn [mbind result_bind]. erewrite (M_bind_Ok (lift (Ok mn))) by reflexivity.
  destruct (np_max (concat (map (take k) (map (read_array w) waves)))) as [mx|e];
    [|reflexivity].
  cbn [mbind result_bind mret result_ret].
  erewrite (M_bind_Ok (lift (Ok mx))) by reflexivity.
  destruct (for_each_rescale_spec (fun x => f_sub x mn)
              (fun x => f_div x (f_sub mx mn)) w (map (slice_to k) waves))
    with (w := w) as (refs & w' & Hrun & Hreads & _).
  { apply Forall_map. eapply Forall_impl; [exact Hwf|].
    intros a. apply wf_array_slice_to. }
  { reflexivity. }
  exists refs, w'. split; [exact Hrun|].
  rewrite Hreads, <- Htrim, !map_map. apply map_ext. intros a.
  now rewrite map_map.
Qed.

Lemma returns_new_rescale (g h : float64 -> float64) (wave : ndarray) :
  returns_new (rescale g h wave).
Proof.
  intros w r w' H. unfold rescale, mbind, M_bind in H.
  destruct (array_map g wave w) as [[d|e] w1] eqn:Hd; [|discriminate].
  pose proof (returns_new_array_map h d w1 r w' H) as Hnew.
  destruct (only_allocates_array_map g wave w) as (_ & _ & _ & Hsub).
  rewrite Hd in Hsub. apply subseteq_dom in Hsub.
  intros Hin. apply Hnew. now apply Hsub.
Qed.

Lemma normalize_waves_ref_returns_new (w w' : world) (waves refs : list ndarray) :
  normalize_waves_ref waves w = (Ok refs, w') ->
  Forall (fun r => arr_base r ∉ dom (buffers w)) refs.
Proof.
  unfold normalize_waves_ref. intros H.
  destruct (py_min (map arr_len waves)) as [k|e]; [|discriminate].
  erewrite (M_bind_Ok (lift (Ok k))) in H by reflexivity.
  erewrite M_bind_Ok in H by apply for_each_array_read.
  destruct (np_min _) as [mn|e]; [|discriminate].
  erewrite (M_bind_Ok (lift (Ok mn))) in H by reflexivity.
  destruct (np_max _) as [mx|e]; [|discriminate].
  erewrite (M_bind_Ok (lift (Ok mx))) in H by reflexivity.
  eapply (for_each_returns_new
            (rescale (fun x => f_sub x mn) (fun x => f_div x (f_sub mx mn))));
    [intros; apply only_allocates_rescale | intros; apply returns_new_rescale
    | exact H].
Qed.

(** C10: [normalize_waves] modifies none of its arguments. Called on
    well-formed array references in any world, and whether it returns or
    raises, it leaves every argument showing the samples it showed before
    the call and every buffer that existed with its contents. The cut
    [wave[:k]] is a view of the argument's buffer and is only read; the
    arrays returned lie in buffers that did not exist before the call. *)
Theorem normalize_waves_keeps_inputs (w : world) (waves : list ndarray) :
  Forall (wf_array w) waves ->
  let w' := (normalize_waves_ref waves w).2 in
  Forall (fun a => read_array w' a = read_array w a) waves /\
  buffers w ⊆ buffers w' /\
  (forall refs, (normalize_waves_ref waves w).1 = Ok refs ->
     Forall (fun r => arr_base r ∉ dom (buffers w)) refs).
Proof.
  intros Hwf w'.
  destruct (only_allocates_normalize_waves_ref waves w) as (_ & _ & _ & Hsub).
  fold w' in Hsub. split; [|split].
  - eapply Forall_impl; [exact Hwf|]. intros a Ha.
    now apply read_array_weaken.
  - exact Hsub.
  - intros refs Hrefs.
    apply (normalize_waves_ref_returns_new w w' waves refs).
    subst w'. destruct (normalize_waves_ref waves w) as [r w1].
    simpl in *. now subst r.
Qed.

Lemma normalize_waves_keeps_inputs_witness :
  let w := {| notes := NOTES; files := ∅; stdout := [];
              buffers := <[1%positive := [Fin 1; Fin 3; Fin 5]]>
                           (<[2%positive := [Fin 2; Fin 0]]> ∅) |} in
  let waves := [NdArray 1 0 3; NdArray 2 0 2] in
  Forall (fun a => read_array (normalize_waves_ref waves w).2 a = read_array w a) waves.
Proof.
  intros w waves. apply (normalize_waves_keeps_inputs w waves).
  repeat constructor.
  - exists [Fin 1; Fin 3; Fin 5]. split; [reflexivity|simpl; lia].
  - exists [Fin 2; Fin 0]. split; [reflexivity|simpl; lia].
Defined.

(** * Further properties of the methods *)

(** ** The default timeline *)

Lemma linspace_lookup (start stop : R) (num i : nat) :
  (i < num)%nat ->
  linspace start stop num !! i =
    Some (start + INR i * ((stop - start) / INR (num - 1))).
Proof.
  intros Hi. unfold linspace.
  rewrite list_lookup_fmap, lookup_seq_lt by exact Hi. reflexivity.
Qed.

Lemma SOUND_ARRAY_LEN_pred : INR (Z.to_nat SOUND_ARRAY_LEN - 1) = 220499.
Proof.
  replace (Z.to_nat SOUND_ARRAY_LEN - 1)%nat with (Z.to_nat 220499)
    by (change SOUND_ARRAY_LEN with 220500%Z; lia).
  rewrite INR_IZR_INZ, Z2Nat.id by lia. reflexivity.
Qed.

(** X1: the default timeline includes both ends of [0, 5]: its instant
    number [i], for [i] below 220500, is i * 5 / 220499. It starts at 0,
    ends at 5, and the spacing of its instants, 5/220499, is not the
    sampling period 1/44100. *)
Theorem common_timeline_instants (i : nat) :
  (Z.of_nat i < 220500)%Z ->
  common_timeline !! i = Some (INR i * (5 / 220499)) /\
  common_timeline !! 0%nat = Some 0 /\
  common_timeline !! Z.to_nat 220499 = Some 5 /\
  5 / 220499 <> 1 / IZR SAMPLING_RATE.
Proof.
  intros Hi.
  assert (Hat : forall j : nat, (Z.of_nat j < 220500)%Z ->
            common_timeline !! j = Some (INR j * (5 / 220499))).
  { intros j Hj. unfold common_timeline.
    rewrite linspace_lookup by (change SOUND_ARRAY_LEN with 220500%Z; lia).
    rewrite SOUND_ARRAY_LEN_pred. change (IZR DURATION_SECONDS) with 5.
    f_equal. lra. }
  split; [exact (Hat i Hi)|]. split; [|split].
  - rewrite (Hat 0%nat) by lia. f_equal. simpl. lra.
  - rewrite Hat by lia. f_equal.
    rewrite INR_IZR_INZ, Z2Nat.id by lia. lra.
  - unfold SAMPLING_RATE. lra.
Qed.

Lemma common_timeline_instants_witness :
  common_timeline !! 1%nat = Some (INR 1 * (5 / 220499)).
Proof. apply (common_timeline_instants 1). reflexivity. Defined.

(** ** Silence and periodicity *)

(** X2: at frequency zero the synthesised wave is zero at every instant of
    any timeline; so the note "0" of [NOTES] gives a float wave of zeros and
    [create_note] returns int16 zeros for it. *)
Theorem silence_is_zero (w : world) (timeline : list R) (name : option string) :
  notes w = NOTES ->
  get_normed_sin timeline 0 = map (fun _ => 0) timeline /\
  get_soundwave timeline "0" w = (Ok (map (fun _ => 0) timeline), w) /\
  (create_note "0" name (Some timeline) w).1 = Ok (map (fun _ => 0%Z) timeline).
Proof.
  intros Hnotes.
  assert (Hzero : get_normed_sin timeline 0 = map (fun _ => 0) timeline).
  { unfold get_normed_sin. apply map_ext. intros t.
    replace (2 * PI * 0 * t) with 0 by lra. rewrite sin_0. lra. }
  assert (Hlook : notes w !! "0" = Some 0%Q)
    by (rewrite Hnotes; vm_compute; reflexivity).
  assert (HQ : Q2R 0 = 0) by (unfold Q2R; simpl; lra).
  split; [exact Hzero|]. split.
  - rewrite (get_soundwave_Some w timeline "0" 0%Q Hlook), HQ, Hzero. reflexivity.
  - rewrite (create_note_Some w "0" name (Some timeline) 0%Q Hlook). simpl.
    rewrite HQ, Hzero, map_map. f_equal. apply map_ext. intros _.
    unfold astype_int16. now rewrite (Rtrunc_IZR 0).
Qed.

Lemma silence_is_zero_witness :
  get_soundwave [0; 1; 2] "0" initial_world = (Ok [0; 0; 0], initial_world).
Proof. apply (silence_is_zero initial_world [0; 1; 2] None). reflexivity. Defined.



(** ** Quantisation error *)

Lemma Rtrunc_error (x : R) :
  Rabs (IZR (Rtrunc x) - x) < 1 /\ Rabs (IZR (Rtrunc x)) <= Rabs x.
Proof.
  unfold Rtrunc. case_decide as H0.
  - destruct (base_Int_part x) as [H1 H2].
    assert (0 <= IZR (Int_part x)).
    { apply IZR_le. destruct (Int_part_bounds x (Int_part x + 1)); [|lia].
      rewrite plus_IZR. lra. }
    split; [apply Rabs_def1; lra|]. rewrite !Rabs_pos_eq; lra.
  - destruct (base_Int_part (- x)) as [H1 H2]. rewrite opp_IZR.
    assert (0 <= IZR (Int_part (- x))).
    { apply IZR_le. destruct (Int_part_bounds (- x) (Int_part (- x) + 1)); [|lia].
      rewrite plus_IZR. lra. }
    split; [apply Rabs_def1; lra|].
    rewrite Rabs_Ropp, (Rabs_pos_eq (IZR _)), (Rabs_left x); lra.
Qed.

(** X4: [create_note] quantises by truncation toward zero: each int16
    sample it returns differs from the float sample of [get_soundwave] by
    less than 1 and is not larger in magnitude. *)
Theorem create_note_quantisation (w : world) (note : string) (frequency : Q)
    (name : option string) (timeline : list R) :
  notes w !! note = Some frequency ->
  exists wave sound_wave,
    (get_soundwave timeline note w).1 = Ok wave /\
    (create_note note name (Some timeline) w).1 = Ok sound_wave /\
    Forall2 (fun q x => Rabs (IZR q - x) < 1 /\ Rabs (IZR q) <= Rabs x)
            sound_wave wave.
Proof.
  intros H. eexists _, _.
  rewrite (get_soundwave_Some w timeline note frequency H).
  rewrite (create_note_Some w note name (Some timeline) frequency H).
  split; [reflexivity|]. split; [reflexivity|]. simpl.
  apply Forall2_fmap_l, Forall_Forall2_diag.
  eapply Forall_impl; [apply get_normed_sin_range|]. intros x Hx. simpl.
  unfold astype_int16. rewrite wrap16_in_range.
  - apply Rtrunc_error.
  - destruct (Rtrunc_bounds x 8192); [simpl; lra|]. lia.
Qed.

Lemma create_note_quantisation_witness :
  exists wave sound_wave,
    (get_soundwave [/ 1760] "a4" initial_world).1 = Ok wave /\
    (create_note "a4" None (Some [/ 1760]) initial_world).1 = Ok sound_wave /\
    Forall2 (fun q x => Rabs (IZR q - x) < 1 /\ Rabs (IZR q) <= Rabs x)
            sound_wave wave.
Proof.
  apply (create_note_quantisation initial_world "a4" 440.0000%Q).
  vm_compute. reflexivity.
Defined.

(** ** Default file names *)

Lemma NoDup_fmap_inj_on {A B : Type} (f : A -> B) (l : list A) (x y : A) :
  NoDup (f <$> l) -> x ∈ l -> y ∈ l -> f x = f y -> x = y.
Proof.
  induction l as [|a l IH]; intros Hnd Hx Hy Hf; [inversion Hx|].
  rewrite fmap_cons in Hnd. apply NoDup_cons in Hnd as [Hnotin Hnd].
  apply elem_of_cons in Hx as [->|Hx], Hy as [->|Hy]; auto.
  - exfalso. apply Hnotin. rewrite Hf. now apply list_elem_of_fmap_2.
  - exfalso. apply Hnotin. rewrite <- Hf. now apply list_elem_of_fmap_2.
Qed.

Lemma default_file_names_NoDup :
  NoDup ((fun note => file_name note None) <$> NOTES_items.*1).
Proof. apply (bool_decide_unpack _). vm_compute. reflexivity. Qed.

(** X5: two different notes of [NOTES] never share a default file name, so
    [create_note] without a name never overwrites the file of another note
    of the table (although replacing '#' by 's' is not injective on
    arbitrary strings: "a#" and "as" collide). *)
Theorem default_file_names_distinct (note1 note2 : string) :
  is_Some (NOTES !! note1) -> is_Some (NOTES !! note2) ->
  file_name note1 None = file_name note2 None ->
  note1 = note2.
Proof.
  intros [f1 H1%NOTES_lookup] [f2 H2%NOTES_lookup].
  apply (NoDup_fmap_inj_on (fun note => file_name note None) (NOTES_items.*1)).
  - exact default_file_names_NoDup.
  - apply list_elem_of_fmap. now exists (note1, f1).
  - apply list_elem_of_fmap. now exists (note2, f2).
Qed.

Lemma default_file_names_distinct_witness :
  file_name "a#4" None = "as4_sin.wav" /\ "a#4" = "a#4".
Proof.
  split; [reflexivity|].
  apply (default_file_names_distinct "a#4" "a#4");
    [vm_compute; eauto | vm_compute; eauto | reflexivity].
Defined.

(** ** Saving a quantised wave *)

Lemma astype_int16_IZR (z : Z) :
  (-32768 <= z <= 32767)%Z -> astype_int16 (IZR z) = z.
Proof.
  intros H. unfold astype_int16. rewrite Rtrunc_IZR. now apply wrap16_in_range.
Qed.

(** X6: saving as WAV a wave whose samples are integers of the int16 range
    loses nothing: the file "<file_name>.wav" holds exactly these integers
    at the sampling rate 44100, and no other file changes. *)
Theorem save_wave_int16_lossless (w : world) (samples : list Z) (file_name : string) :
  Forall (fun z => (-32768 <= z <= 32767)%Z) samples ->
  exists w',
    save_wave (map IZR samples) file_name "WAV" w = (Ok tt, w') /\
    files w' !! (file_name +:+ ".wav") = Some (WavFile 44100 samples) /\
    (forall path, path <> file_name +:+ ".wav" -> files w' !! path = files w !! path) /\
    notes w' = notes w /\ stdout w' = stdout w /\ buffers w' = buffers w.
Proof.
  intros Hrange. eexists. split; [unfold save_wave; rewrite decide_True by reflexivity; reflexivity|].
  simpl. split; [|split; [|auto]].
  - rewrite lookup_insert_eq. do 2 f_equal.
    rewrite map_map. rewrite <- (map_id samples) at 2.
    apply map_ext_in. intros z Hz. apply astype_int16_IZR.
    rewrite Forall_forall in Hrange. now apply Hrange, list_elem_of_In.
  - intros path Hne. now rewrite lookup_insert_ne.
Qed.

Lemma save_wave_int16_lossless_witness :
  exists w',
    save_wave (map IZR [8192; -3; 0]%Z) "out" "WAV" initial_world = (Ok tt, w') /\
    files w' !! "out.wav" = Some (WavFile 44100 [8192; -3; 0]%Z).
Proof.
  destruct (save_wave_int16_lossless initial_world [8192; -3; 0]%Z "out")
    as (w' & Hrun & Hfile & _).
  - repeat constructor; lia.
  - exists w'. split; assumption.
Defined.

(** ** The printed report *)





Lemma print_wave_details_run (w : world) (x : R) (xs : list R)
    (sampling_rate : option Z) :
  let wave := x :: xs in
  let rate := match sampling_rate with
              | None => SAMPLING_RATE
              | Some r => if decide (r = 0%Z) then SAMPLING_RATE else r
              end in
  print_wave_details wave sampling_rate w =
    (Ok tt,
     {| notes := notes w; files := files w;
        stdout := stdout w ++
          [("Duration", Fin (INR (length wave) / IZR rate));
           ("Min Amplitude", Fin (foldl Rmin x xs));
           ("Max Amplitude", Fin (foldl Rmax x xs));
           ("Mean Amplitude", Fin (np_mean wave));
           ("Standard Deviation", Fin (np_std wave));
           ("Wave Length", Fin (INR (length wave)))];
        buffers := buffers w |}).
Proof.
  intros wave rate. subst wave. unfold print_wave_details.
  assert (Hmin : np_min (as_array (x :: xs)) = Ok (Fin (foldl Rmin x xs)))
    by (cbn [np_min as_array map]; now rewrite <- foldl_f_min_Fin).
  assert (Hmax : np_max (as_array (x :: xs)) = Ok (Fin (foldl Rmax x xs)))
    by (cbn [np_max as_array map]; now rewrite <- foldl_f_max_Fin).
  rewrite Hmin, Hmax.
  unfold mbind, M_bind, lift, print. cbn [fst snd notes files stdout buffers].
  rewrite <- !app_assoc. reflexivity.
Qed.

Lemma print_wave_details_nonempty (w : world) (wave : list R)
    (sampling_rate : option Z) :
  wave <> [] ->
  exists mn mx,
    print_wave_details wave sampling_rate w =
      (Ok tt,
       {| notes := notes w; files := files w;
          stdout := stdout w ++
            [("Duration",
              Fin (INR (length wave) /
                   IZR match sampling_rate with
                       | None => SAMPLING_RATE
                       | Some r => if decide (r = 0%Z) then SAMPLING_RATE else r
                       end));
             ("Min Amplitude", Fin mn);
             ("Max Amplitude", Fin mx);
             ("Mean Amplitude", Fin (np_mean wave));
             ("Standard Deviation", Fin (np_std wave));
             ("Wave Length", Fin (INR (length wave)))];
          buffers := buffers w |}).
Proof.
  intros Hne. destruct wave as [|x xs]; [congruence|].
  eexists _, _. apply print_wave_details_run.
Qed.



(** X8: the wave that [create_note] returns over the default timeline,
    printed without a sampling rate, is reported with the duration 5 and
    the wave length 220500, and the six lines follow whatever was printed
    before. *)
Theorem default_wave_duration (w : world) (note : string) (frequency : Q)
    (name : option string) :
  notes w !! note = Some frequency ->
  exists sound_wave w1 w2 mn mx mean std,
    create_note note name None w = (Ok sound_wave, w1) /\
    print_wave_details (map IZR sound_wave) None w1 = (Ok tt, w2) /\
    stdout w2 = stdout w ++
      [("Duration", Fin 5); ("Min Amplitude", Fin mn); ("Max Amplitude", Fin mx);
       ("Mean Amplitude", Fin mean); ("Standard Deviation", Fin std);
       ("Wave Length", Fin 220500)].
Proof.
  intros H.
  pose proof (create_note_Some w note name None frequency H) as Hrun.
  cbv zeta in Hrun. cbn [default] in Hrun.
  set (sound_wave := map astype_int16 (get_normed_sin common_timeline (Q2R frequency))) in *.
  assert (Hlen : INR (length (map IZR sound_wave)) = 220500).
  { subst sound_wave. rewrite !length_map, get_normed_sin_length.
    rewrite INR_IZR_INZ, common_timeline_length. reflexivity. }
  clearbody sound_wave.
  set (w1 := {| notes := notes w;
                files := <[file_name note name := WavFile SAMPLING_RATE sound_wave]> (files w);
                stdout := stdout w; buffers := buffers w |}) in *.
  destruct (print_wave_details_nonempty w1 (map IZR sound_wave) None)
    as (mn & mx & Hprint).
  { intros Hnil. rewrite Hnil in Hlen. cbn [length INR] in Hlen. lra. }
  eexists sound_wave, w1, _, mn, mx, _, _.
  split; [exact Hrun|]. split; [exact Hprint|].
  cbn [stdout w1]. rewrite Hlen. do 3 f_equal.
  unfold SAMPLING_RATE. f_equal. lra.
Qed.

Lemma default_wave_duration_witness :
  exists sound_wave w1 w2 mn mx mean std,
    create_note "a4" None None initial_world = (Ok sound_wave, w1) /\
    print_wave_details (map IZR sound_wave) None w1 = (Ok tt, w2) /\
    stdout w2 = [] ++
      [("Duration", Fin 5); ("Min Amplitude", Fin mn); ("Max Amplitude", Fin mx);
       ("Mean Amplitude", Fin mean); ("Standard Deviation", Fin std);
       ("Wave Length", Fin 220500)].
Proof.
  apply (default_wave_duration initial_world "a4" 440.0000%Q None).
  vm_compute. reflexivity.
Defined.

(** ** More on normalisation *)

Lemma least_length_exists (w : list float64) (ws : list (list float64)) :
  is_minimum le (foldl Nat.min (length w) (map length ws)) (map length (w :: ws)).
Proof. apply (foldl_least_is_minimum le Nat.min); intros; lia. Qed.

Lemma trimmed_again {A : Type} (k : nat) (waves : list (list A)) :
  map (take k) (map (take k) waves) = map (take k) waves.
Proof.
  rewrite map_map. apply map_ext. intros w. rewrite take_take. f_equal. lia.
Qed.

Lemma trimmed_lengths {A : Type} (k : nat) (waves : list (list A)) :
  Forall (fun w => (k <= length w)%nat) waves ->
  Forall (fun w => length w = k) (map (take k) waves).
Proof.
  intros H. apply Forall_map. eapply Forall_impl; [exact H|].
  intros w Hw. simpl. now apply length_take_le.
Qed.

Lemma is_minimum_length_le {A : Type} (k : nat) (waves : list (list A)) :
  is_minimum le k (map length waves) ->
  Forall (fun w => (k <= length w)%nat) waves.
Proof.
  intros [_ H]. apply Forall_forall. intros w Hw.
  rewrite Forall_forall in H. apply H, list_elem_of_fmap. now exists w.
Qed.

Lemma concat_nil_Forall {A : Type} (ls : list (list A)) :
  Forall (fun l => l = []) ls -> concat ls = [].
Proof. induction 1 as [|l ls -> _ IH]; simpl; auto. Qed.

(** X9: [normalize_waves] raises exactly when it is called with no wave or
    with a wave that is empty, and the exception is then ValueError. In
    every other case it returns as many waves as it was given, each as long
    as the shortest input. *)
Theorem normalize_waves_errors (waves : list (list float64)) :
  (normalize_waves waves = Raise ValueError <-> waves = [] \/ [] ∈ waves) /\
  (forall e, normalize_waves waves = Raise e -> e = ValueError) /\
  (forall out, normalize_waves waves = Ok out ->
     length out = length waves /\
     exists k, is_minimum le k (map length waves) /\
               Forall (fun o => length o = k) out).
Proof.
  destruct waves as [|w0 ws].
  { split; [split; [auto|reflexivity]|].
    split; [intros e [= <-]; reflexivity|intros out [=]]. }
  pose proof (least_length_exists w0 ws) as Hk.
  set (k := foldl Nat.min (length w0) (map length ws)) in *.
  set (waves := w0 :: ws) in *.
  pose proof (is_minimum_length_le k waves Hk) as Hle.
  assert (Hpy : py_min (map length waves) = Ok k) by reflexivity.
  destruct k as [|k'] eqn:Ek.
  - (* some wave is empty *)
    assert (Hin : [] ∈ waves).
    { destruct Hk as [Hin _]. apply list_elem_of_fmap in Hin as (w & Hw & Hin).
      destruct w; [exact Hin|discriminate]. }
    assert (Hrun : normalize_waves waves = Raise ValueError).
    { unfold normalize_waves. rewrite Hpy. cbn [mbind result_bind].
      rewrite concat_nil_Forall; [reflexivity|].
      apply Forall_map, Forall_forall. intros w _. reflexivity. }
    rewrite Hrun. split; [split; auto|].
    split; [intros e [= <-]; reflexivity|intros out [=]].
  - (* every wave has a sample *)
    assert (Hnotin : ~ ([] ∈ waves)).
    { intros Hin. rewrite Forall_forall in Hle. specialize (Hle _ Hin).
      simpl in Hle. lia. }
    assert (Hrun : exists mn mx,
              normalize_waves waves =
                Ok (map (fun wave => map (fun x => f_div (f_sub x mn) (f_sub mx mn)) wave)
                        (map (take (S k')) waves))).
    { unfold normalize_waves. rewrite Hpy. cbn [mbind result_bind].
      destruct (concat (map (take (S k')) waves)) as [|x xs] eqn:Hc.
      - exfalso. subst waves. cbn [map concat] in Hc.
        apply app_eq_nil in Hc as [Hc _].
        apply Forall_cons in Hle as [Hle _].
        destruct w0; [simpl in Hle; lia|discriminate].
      - eexists _, _. reflexivity. }
    destruct Hrun as (mn & mx & Hrun).
    assert (Hne : waves <> []) by discriminate.
    clearbody waves. rewrite Hrun.
    split; [split; [discriminate|intros [Hnil|Hin]; now exfalso]|].
    split; [intros e [=]|]. intros out [= <-]. split.
    + now rewrite !length_map.
    + exists (S k'). split; [exact Hk|].
      apply Forall_map. eapply Forall_impl; [apply (trimmed_lengths (S k') waves Hle)|].
      intros o Ho. simpl. now rewrite length_map.
Qed.

(** X10: [normalize_waves] looks only at the first [k] samples of each
    wave, where [k] is the least input length: cutting every wave to [k]
    samples beforehand gives the same result, or the same exception. *)
Theorem normalize_waves_cut_first (waves : list (list float64)) (k : nat) :
  is_minimum le k (map length waves) ->
  normalize_waves (map (take k) waves) = normalize_waves waves.
Proof.
  intros Hk. unfold normalize_waves.
  rewrite (py_min_is_minimum _ k Hk).
  assert (Hk' : is_minimum le k (map length (map (take k) waves))).
  { assert (Heq : map length (map (take k) waves) = map (fun _ => k) waves).
    { rewrite map_map. apply Forall_fmap_ext_1.
      eapply Forall_impl; [exact (is_minimum_length_le k waves Hk)|].
      intros w Hw. now apply length_take_le. }
    rewrite Heq.
    destruct waves as [|w ws]; [destruct Hk as [Hin _]; inversion Hin|].
    split; [left|]. apply Forall_forall. intros n Hn.
    apply list_elem_of_fmap in Hn as (w' & -> & _). lia. }
  rewrite (py_min_is_minimum _ k Hk'). cbn [mbind result_bind].
  now rewrite trimmed_again.
Qed.

Lemma normalize_waves_cut_first_witness :
  normalize_waves (map (take 2) [[Fin 1; Fin 3; Fin 5]; [Fin 2; Fin 0]]) =
    normalize_waves [[Fin 1; Fin 3; Fin 5]; [Fin 2; Fin 0]].
Proof.
  apply (normalize_waves_cut_first [[Fin 1; Fin 3; Fin 5]; [Fin 2; Fin 0]] 2).
  split; [right; left|repeat constructor; lia].
Defined.

Lemma foldl_f_min_NaN (xs : list float64) : foldl f_min NaN xs = NaN.
Proof. induction xs as [|y xs IH]; simpl; auto. Qed.

Lemma foldl_f_max_NaN (xs : list float64) : foldl f_max NaN xs = NaN.
Proof. induction xs as [|y xs IH]; simpl; auto. Qed.

Lemma f_min_NaN_r (x : float64) : f_min x NaN = NaN.
Proof. now destruct x. Qed.

Lemma f_max_NaN_r (x : float64) : f_max x NaN = NaN.
Proof. now destruct x. Qed.

Lemma np_min_NaN (xs : list float64) : NaN ∈ xs -> np_min xs = Ok NaN.
Proof.
  destruct xs as [|x xs]; [inversion 1|]. intros Hin. simpl. f_equal.
  revert x Hin. induction xs as [|y xs IH]; intros x Hin.
  - apply elem_of_cons in Hin as [<-|Hin]; [reflexivity|inversion Hin].
  - cbn [foldl]. apply elem_of_cons in Hin as [<-|Hin].
    + apply foldl_f_min_NaN.
    + apply elem_of_cons in Hin as [<-|Hin].
      * rewrite f_min_NaN_r. apply foldl_f_min_NaN.
      * apply IH. now right.
Qed.

Lemma np_max_NaN (xs : list float64) : NaN ∈ xs -> np_max xs = Ok NaN.
Proof.
  destruct xs as [|x xs]; [inversion 1|]. intros Hin. simpl. f_equal.
  revert x Hin. induction xs as [|y xs IH]; intros x Hin.
  - apply elem_of_cons in Hin as [<-|Hin]; [reflexivity|inversion Hin].
  - cbn [foldl]. apply elem_of_cons in Hin as [<-|Hin].
    + apply foldl_f_max_NaN.
    + apply elem_of_cons in Hin as [<-|Hin].
      * rewrite f_max_NaN_r. apply foldl_f_max_NaN.
      * apply IH. now right.
Qed.

(** X11: one [nan] among the samples kept spoils everything: the global
    minimum and maximum are [nan] and [normalize_waves] returns the waves
    cut to the least length with every sample [nan]. *)
Theorem normalize_waves_nan (waves : list (list float64)) (k : nat) :
  is_minimum le k (map length waves) ->
  NaN ∈ concat (map (take k) waves) ->
  normalize_waves waves = Ok (map (fun w => map (fun _ => NaN) (take k w)) waves).
Proof.
  intros Hk Hnan. unfold normalize_waves.
  rewrite (py_min_is_minimum _ k Hk). cbn [mbind result_bind].
  rewrite (np_min_NaN _ Hnan), (np_max_NaN _ Hnan).
  cbn [mbind result_bind mret result_ret]. f_equal.
  rewrite map_map. apply map_ext. intros w. apply map_ext. intros x.
  now destruct x.
Qed.

Lemma normalize_waves_nan_witness :
  normalize_waves [[Fin 1; NaN; Fin 5]; [Fin 2; Fin 0]] =
    Ok [[NaN; NaN]; [NaN; NaN]].
Proof.
  apply (normalize_waves_nan [[Fin 1; NaN; Fin 5]; [Fin 2; Fin 0]] 2).
  - split; [right; left|repeat constructor; lia].
  - right. left.
Defined.

(** *** Waves of real amplitudes *)











(** ** Arrays passed by reference, continued *)

(** X14: called on well-formed array references, [normalize_waves] returns
    references to arrays that hold exactly what the method computes from
    the contents of its arguments, and when that computation raises, the
    call raises the same exception and leaves the world as it was. *)
Theorem normalize_waves_ref_computes (w : world) (waves : list ndarray) :
  Forall (wf_array w) waves ->
  (forall out, normalize_waves (map (read_array w) waves) = Ok out ->
     exists refs w', normalize_waves_ref waves w = (Ok refs, w') /\
       map (read_array w') refs = out) /\
  (forall e, normalize_waves (map (read_array w) waves) = Raise e ->
     normalize_waves_ref waves w = (Raise e, w)).
Proof.
  intros Hwf. pose proof (normalize_waves_ref_refines w waves Hwf) as H.
  split.
  - intros out Hout. now rewrite Hout in H.
  - intros e He. now rewrite He in H.
Qed.

Lemma normalize_waves_ref_computes_witness :
  let w := {| notes := NOTES; files := ∅; stdout := [];
              buffers := <[1%positive := [Fin 1; Fin 3; Fin 5]]>
                           (<[2%positive := [Fin 2; Fin 0]]> ∅) |} in
  let waves := [NdArray 1 0 3; NdArray 2 2 0] in
  normalize_waves_ref waves w = (Raise ValueError, w).
Proof.
  intros w waves. apply (normalize_waves_ref_computes w waves).
  - repeat constructor.
    + exists [Fin 1; Fin 3; Fin 5]. split; [reflexivity|simpl; lia].
    + exists [Fin 2; Fin 0]. split; [reflexivity|simpl; lia].
  - reflexivity.
Defined.

(** ** Writing the same note again *)

(** X15: [create_note] overwrites: calling it a second time with the same
    arguments returns the same samples and leaves the world exactly as the
    first call left it. *)
Theorem create_note_twice (w : world) (note : string) (frequency : Q)
    (name : option string) (timeline : option (list R)) :
  notes w !! note = Some frequency ->
  exists sound_wave w1,
    create_note note name timeline w = (Ok sound_wave, w1) /\
    create_note note name timeline w1 = (Ok sound_wave, w1).
Proof.
  intros H. eexists _, _. split.
  - apply (create_note_Some w note name timeline frequency H).
  - cbv zeta.
    rewrite (create_note_Some _ note name timeline frequency) by exact H.
    cbv zeta. cbn [notes files stdout buffers]. rewrite insert_insert_eq.
    reflexivity.
Qed.

Lemma create_note_twice_witness :
  exists sound_wave w1,
    create_note "a4" None (Some [0]) initial_world = (Ok sound_wave, w1) /\
    create_note "a4" None (Some [0]) w1 = (Ok sound_wave, w1).
Proof.
  apply (create_note_twice initial_world "a4" 440.0000%Q).
  vm_compute. reflexivity.
Defined.
